(** * The Holded contacts dashboard: fetcher and table renderer

    A shallow embedding of the server action [getContacts] (both copies
    of it that the repository holds), of the generated client's [auth]
    and [listContacts], and of the [ContactsTable] component with its
    [getTypeColor] helper, together with the properties the written
    specification states about them; then the [Home] page and the
    endpoint methods of the client, with further properties read off
    the code. *)

From Stdlib Require Import Floats.PrimFloat.
From stdpp Require Import gmap strings list.

Local Open Scope string_scope.
Local Open Scope list_scope.
Local Set Warnings "-register-all".

(** ** Runtime values

    What the remote API hands back is parsed JSON, so a contact record
    is whatever the wire carried: the TypeScript annotations do not
    exist at run time.  Objects are finite maps from property names to
    values, numbers are IEEE doubles. *)

Inductive JsValue : Type :=
  | JUndefined
  | JNull
  | JBool (b : bool)
  | JNum (x : float)
  | JStr (s : string)
  | JArr (items : list JsValue)
  | JObj (props : gmap string JsValue).

(** What a [throw] or a rejected promise carries. *)
Inductive Thrown : Type :=
  | TypeError (message : string)
  | Rejection (reason : JsValue).

(** The outcome of evaluating an expression: a value, or an exception
    on its way to the nearest handler. *)
Inductive Completion (A : Type) : Type :=
  | Normal (a : A)
  | Throw (e : Thrown).

Arguments Normal {A} a.
Arguments Throw {A} e.

#[global] Instance Completion_ret : MRet Completion := @Normal.

#[global] Instance Completion_bind : MBind Completion :=
  λ A B f c, match c with Normal a => f a | Throw e => Throw e end.

(** ** Operators of the language *)

Module Js.

(** The [typeof] operator. *)
Definition typeof (v : JsValue) : string :=
  match v with
  | JUndefined => "undefined"
  | JNull => "object"
  | JBool _ => "boolean"
  | JNum _ => "number"
  | JStr _ => "string"
  | JArr _ => "object"
  | JObj _ => "object"
  end.

(** ToBoolean, as [!x] and [if (x)] apply it. *)
Definition truthy (v : JsValue) : bool :=
  match v with
  | JUndefined => false
  | JNull => false
  | JBool b => b
  | JNum x => negb (PrimFloat.is_zero x || PrimFloat.is_nan x)
  | JStr s => negb (String.eqb s "")
  | JArr _ => true
  | JObj _ => true
  end.

Definition nullish (v : JsValue) : bool :=
  match v with
  | JUndefined | JNull => true
  | _ => false
  end.

(** [v.k] for a property name [k] that no built-in prototype defines
    (every name the source reads is one: data, id, customId, name,
    code, tradeName, email, mobile, phone, type).  Reading a property
    of [undefined] or [null] throws; an object answers with its own
    property or [undefined]; a primitive or an array has no such
    property. *)
Definition member (v : JsValue) (k : string) : Completion JsValue :=
  match v with
  | JUndefined => Throw (TypeError "Cannot read properties of undefined")
  | JNull => Throw (TypeError "Cannot read properties of null")
  | JObj props => Normal (default JUndefined (props !! k))
  | _ => Normal JUndefined
  end.

(** [v?.k]: short-circuits to [undefined] on a nullish receiver. *)
Definition optMember (v : JsValue) (k : string) : Completion JsValue :=
  if nullish v then Normal JUndefined else member v k.

(** The receiver of an array method call [v.method(...)]: anything but
    an array either has no properties to read or has no such method. *)
Definition arrayReceiver (v : JsValue) (method : string) : Completion (list JsValue) :=
  match v with
  | JArr items => Normal items
  | JUndefined => Throw (TypeError "Cannot read properties of undefined")
  | JNull => Throw (TypeError "Cannot read properties of null")
  | _ => Throw (TypeError (method ++ " is not a function")%string)
  end.

(** [Array.prototype.filter]: the callback runs on the elements from
    left to right, and an exception it throws ends the call. *)
Fixpoint Array_filter (callback : JsValue → Completion bool)
    (items : list JsValue) : Completion (list JsValue) :=
  match items with
  | [] => Normal []
  | item :: rest =>
      keep ← callback item;
      kept ← Array_filter callback rest;
      Normal (if keep : bool then item :: kept else kept)
  end.

(** [Array.prototype.map], likewise from left to right. *)
Definition Array_map {B : Type} (callback : JsValue → Completion B)
    (items : list JsValue) : Completion (list B) :=
  mapM callback items.

End Js.

(** ** The Contact interface (types/contacts)

    The interface promises strings; at run time each field holds what
    the projection read from the remote record, [JUndefined] when the
    record had no such key. *)

Module Contact.

Record t : Type := mk {
  id : JsValue;
  customId : JsValue;
  name : JsValue;
  code : JsValue;
  tradeName : JsValue;
  email : JsValue;
  mobile : JsValue;
  phone : JsValue;
  type : JsValue
}.

End Contact.

(** ** The process and the world around it *)

(** A call that reached the API core of the generated client. *)
Inductive CoreCall : Type :=
  | SetAuth (values : list JsValue)
  | Fetch (path method : string) (metadata : JsValue).

(** What the program can change: the credentials held by the singleton
    client, the calls that client has seen, and the error console. *)
Record World : Type := mkWorld {
  core_auth : list JsValue;
  core_calls : list CoreCall;
  console : list (string * Thrown)
}.

(** What the program can only read: the process environment, and the
    remote service behind [APICore.fetch], which answers a request made
    under given credentials by resolving to a response or rejecting. *)
Record Host : Type := mkHost {
  process_env : gmap string string;
  core_fetch : list JsValue → string → string → JsValue → Completion JsValue
}.

(** Statements run in the world and may throw; what they did to the
    world before throwing stays done. *)
Definition Js (A : Type) : Type := World → Completion A * World.

#[global] Instance Js_ret : MRet Js := λ A a w, (Normal a, w).

#[global] Instance Js_bind : MBind Js :=
  λ A B f c w,
    match c w with
    | (Normal a, w') => f a w'
    | (Throw e, w') => (Throw e, w')
    end.

(** An expression that touches no state, used as a statement. *)
Definition pure {A : Type} (c : Completion A) : Js A := λ w, (c, w).

(** [try { body } catch (error) { handler }]. *)
Definition tryCatch {A : Type} (body : Js A) (handler : Thrown → Js A) : Js A :=
  λ w,
    match body w with
    | (Normal a, w') => (Normal a, w')
    | (Throw e, w') => handler e w'
    end.

(** [console.error(label, error)]. *)
Definition console_error (label : string) (error : Thrown) : Js unit :=
  λ w, (Normal (),
        {| core_auth := core_auth w;
           core_calls := core_calls w;
           console := console w ++ [(label, error)] |}).

(** [process.env.NAME]: the variable's value, [undefined] when unset. *)
Definition process_env_get (h : Host) (name : string) : JsValue :=
  default JUndefined (JStr <$> process_env h !! name).

(** ** The generated client (.api/apis/holded) *)

Module holded.

(** [auth(...values)]: hands the credentials to the core. *)
Definition auth (values : list JsValue) : Js unit :=
  λ w, (Normal (),
        {| core_auth := values;
           core_calls := core_calls w ++ [SetAuth values];
           console := console w |}).

(** [listContacts(metadata?)]: [core.fetch('/contacts', 'get', metadata)],
    awaited by the caller. *)
Definition listContacts (h : Host) (metadata : JsValue) : Js JsValue :=
  λ w, (core_fetch h (core_auth w) "/contacts" "get" metadata,
        {| core_auth := core_auth w;
           core_calls := core_calls w ++ [Fetch "/contacts" "get" metadata];
           console := console w |}).

End holded.

(** ** The endpoint methods of the generated client

    Every endpoint method of the SDK class has the one body
    [return this.core.fetch(path, verb, ...arguments)]: it is determined
    by its name, the path template, the HTTP verb and which of its
    parameters it hands on. *)

Module SDK.

(** The parameters a method hands on to [core.fetch]. *)
Inductive Param : Type :=
  | body
  | metadata.

Record Operation : Type := mkOp {
  op_name : string;
  op_path : string;
  op_verb : string;
  op_params : list Param
}.


(** The methods, in the order of the class. *)
Definition operations : list Operation :=
  [
    mkOp "listContacts"
      "/contacts" "get" [metadata];
    mkOp "createContact"
      "/contacts" "post" [body];
    mkOp "getContact"
      "/contacts/{contactId}" "get" [metadata];
    mkOp "updateContact"
      "/contacts/{contactId}" "put" [body; metadata];
    mkOp "deleteContact"
      "/contacts/{contactId}" "delete" [metadata];
    mkOp "getAttachmentsList"
      "/contacts/{contactId}/attachments/list" "get" [metadata];
    mkOp "getAttachment"
      "/contacts/{contactId}/attachments/get" "get" [metadata];
    mkOp "listContactGroups"
      "/contacts/groups" "get" [];
    mkOp "createContactGroup"
      "/contacts/groups" "post" [body];
    mkOp "getContactGroup"
      "/contacts/groups/{groupId}" "get" [metadata];
    mkOp "updateContactGroup"
      "/contacts/groups/{groupId}" "put" [body; metadata];
    mkOp "deleteContactGroup"
      "/contacts/groups/{groupId}" "delete" [metadata];
    mkOp "listProducts"
      "/products" "get" [];
    mkOp "createProduct"
      "/products" "post" [body];
    mkOp "updateProduct"
      "/products/{productId}" "put" [body; metadata];
    mkOp "deleteProduct"
      "/products/{productId}" "delete" [metadata];
    mkOp "getProduct"
      "/products/{productId}" "get" [metadata];
    mkOp "listWarehouses"
      "/warehouses" "get" [];
    mkOp "createWarehouse"
      "/warehouses" "post" [body];
    mkOp "listProductsStock"
      "/warehouses/{warehouseId}/stock" "get" [metadata];
    mkOp "getWarehouse"
      "/warehouses/{warehouseId}" "get" [metadata];
    mkOp "updateWarehouse"
      "/warehouses/{warehouseId}" "put" [body; metadata];
    mkOp "deleteWarehouse"
      "/warehouses/{warehouseId}" "delete" [metadata];
    mkOp "getTaxes"
      "/taxes" "get" [];
    mkOp "listTreasuries"
      "/treasury" "get" [];
    mkOp "createTreasury"
      "/treasury" "post" [body];
    mkOp "getTreasury"
      "/treasury/{treasuryId}" "get" [metadata];
    mkOp "getNumberingSeries"
      "/numberingseries/{type}" "get" [metadata];
    mkOp "createNumberingSerie"
      "/numberingseries/{type}" "post" [body; metadata];
    mkOp "updateNumberingSerie"
      "/numberingseries/{type}/{numberingSeriesId}" "put" [body; metadata];
    mkOp "deleteNumberingSerie"
      "/numberingseries/{type}/{numberingSeriesId}" "delete" [metadata];
    mkOp "listExpensesAccounts"
      "/expensesaccounts" "get" [];
    mkOp "createExpensesAccount"
      "/expensesaccounts" "post" [body];
    mkOp "getExpensesAccount"
      "/expensesaccounts/{expensesAccountId}" "get" [metadata];
    mkOp "updateExpensesAccount"
      "/expensesaccounts/{expensesAccountId}" "put" [body; metadata];
    mkOp "deleteExpensesAccount"
      "/expensesaccounts/{expensesAccountId}" "delete" [metadata];
    mkOp "listSalesChannels"
      "/saleschannels" "get" [];
    mkOp "createSalesChannel"
      "/saleschannels" "post" [body];
    mkOp "getSalesChannel"
      "/saleschannels/{salesChannelId}" "get" [metadata];
    mkOp "updateSalesChannel"
      "/saleschannels/{salesChannelId}" "put" [body; metadata];
    mkOp "deleteSalesChannel"
      "/saleschannels/{salesChannelId}" "delete" [metadata];
    mkOp "listPayments"
      "/payments" "get" [metadata];
    mkOp "createPayment"
      "/payments" "post" [body];
    mkOp "getPayment"
      "/payments/{paymentId}" "get" [metadata];
    mkOp "updatePayment"
      "/payments/{paymentId}" "put" [body; metadata];
    mkOp "deletePayment"
      "/payments/{paymentId}" "delete" [metadata];
    mkOp "listDocuments"
      "/documents/{docType}" "get" [metadata];
    mkOp "createDocument"
      "/documents/{docType}" "post" [body; metadata];
    mkOp "getDocument"
      "/documents/{docType}/{documentId}" "get" [metadata];
    mkOp "updateDocument"
      "/documents/{docType}/{documentId}" "put" [body; metadata];
    mkOp "deleteDocument"
      "/documents/{docType}/{documentId}" "delete" [metadata];
    mkOp "payDocument"
      "/documents/{docType}/{documentId}/pay" "post" [body; metadata];
    mkOp "sendDocument"
      "/documents/{docType}/{documentId}/send" "post" [body; metadata];
    mkOp "getDocumentPDF"
      "/documents/{docType}/{documentId}/pdf" "get" [metadata];
    mkOp "shipAllItems"
      "/documents/salesorder/{documentId}/shipall" "post" [metadata];
    mkOp "shipItemsByLine"
      "/documents/salesorder/{documentId}/shipbylines" "post" [body; metadata];
    mkOp "shippedUnitsByItem"
      "/documents/{docType}/{documentId}/shippeditems" "get" [metadata];
    mkOp "attachFile"
      "/documents/{docType}/{documentId}/attach" "post" [body; metadata];
    mkOp "updateTrackingInfo"
      "/documents/{docType}/{documentId}/updatetracking" "post" [body; metadata];
    mkOp "updateDocumentPipeline"
      "/documents/{docType}/{documentId}/pipeline/set" "post" [body; metadata];
    mkOp "listPaymentMethods"
      "/paymentmethods" "get" [];
    mkOp "listRemittances"
      "/remittances" "get" [];
    mkOp "getRemittance"
      "/remittances/{remittanceId}" "get" [metadata];
    mkOp "getProductImage"
      "/products/{productId}/image" "get" [metadata];
    mkOp "listProductImages"
      "/products/{productId}/imagesList" "get" [metadata];
    mkOp "getProductsProductidImageImagefilename"
      "/products/{productId}/image/{imageFileName}" "get" [metadata];
    mkOp "updateProductStock"
      "/products/{productId}/stock" "put" [body; metadata];
    mkOp "listServices"
      "/services" "get" [];
    mkOp "createService"
      "/services" "post" [body];
    mkOp "getService"
      "/services/{serviceId}" "get" [metadata];
    mkOp "updateService"
      "/services/{serviceId}" "put" [body; metadata];
    mkOp "deleteService"
      "/services/{serviceId}" "delete" [metadata]
  ].



End SDK.

(** ** The server action

    Both copies of the action share everything after the call to
    [listContacts]: the filter on [contacts.data] and the projection. *)

(** The filter's callback: [typeof contact?.id === 'string']. *)
Definition hasStringId (contact : JsValue) : Completion bool :=
  idv ← Js.optMember contact "id";
  mret (String.eqb (Js.typeof idv) "string").

(** The map's callback: the object literal of nine member reads. *)
Definition toContact (contact : JsValue) : Completion Contact.t :=
  id ← Js.member contact "id";
  customId ← Js.member contact "customId";
  name ← Js.member contact "name";
  code ← Js.member contact "code";
  tradeName ← Js.member contact "tradeName";
  email ← Js.member contact "email";
  mobile ← Js.member contact "mobile";
  phone ← Js.member contact "phone";
  type ← Js.member contact "type";
  mret (Contact.mk id customId name code tradeName email mobile phone type).

(** [contacts.data.filter(...).map(...)]. *)
Definition filterAndMap (contacts : JsValue) : Completion (list Contact.t) :=
  data ← Js.member contacts "data";
  items ← Js.arrayReceiver data "contacts.data.filter";
  kept ← Js.Array_filter hasStringId items;
  Js.Array_map toContact kept.

(** The [catch] block, the same in both copies. *)
Definition catchBlock (error : Thrown) : Js (list Contact.t) :=
  console_error "Error fetching contacts:" error;;
  mret [].

(** The copy that reads the credential from the environment. *)
Module Actions.

Definition tryBlock (h : Host) : Js (list Contact.t) :=
  holded.auth [process_env_get h "HOLDED_API_KEY"];;
  contacts ← holded.listContacts h JUndefined;
  pure (filterAndMap contacts).

Definition getContacts (h : Host) : Js (list Contact.t) :=
  tryCatch (tryBlock h) catchBlock.

End Actions.

(** The copy that carries the credential as a string literal. *)
Module LiteralKeyActions.

Definition tryBlock (h : Host) : Js (list Contact.t) :=
  holded.auth [JStr "964f48473d755069d293cd3227d935b1"];;
  contacts ← holded.listContacts h JUndefined;
  pure (filterAndMap contacts).

Definition getContacts (h : Host) : Js (list Contact.t) :=
  tryCatch (tryBlock h) catchBlock.

End LiteralKeyActions.

(** ** The table component (components/contacts-table) *)

(** The elements the component builds, as far as its own code decides
    them. *)
Record ChipElement : Type := mkChip {
  chip_color : string;
  chip_variant : string;
  chip_children : JsValue
}.

Inductive CellChild : Type :=
  | Text (v : JsValue)
  | Chip (c : ChipElement).

Record TableRowElement : Type := mkRow {
  key : JsValue;
  cells : list CellChild
}.

Record TableElement : Type := mkTable {
  aria_label : string;
  wrapper_class : string;
  columns : list string;
  rows : list TableRowElement
}.

Definition getTypeColor (type : JsValue) : string :=
  if negb (Js.truthy type) then "default"
  else
    match type with
    | JStr s =>
        if String.eqb s "client" then "success"
        else if String.eqb s "supplier" then "warning"
        else if String.eqb s "lead" then "primary"
        else if String.eqb s "debtor" then "danger"
        else if String.eqb s "creditor" then "secondary"
        else "default"
    | _ => "default"
    end.

Definition renderRow (contact : Contact.t) : TableRowElement :=
  {| key := Contact.id contact;
     cells :=
       [ Text (Contact.name contact);
         Text (Contact.email contact);
         Text (Contact.phone contact);
         Chip {| chip_color := getTypeColor (Contact.type contact);
                 chip_variant := "flat";
                 chip_children := Contact.type contact |};
         Text (Contact.tradeName contact);
         Text (Contact.code contact);
         Text (Contact.mobile contact) ] |}.

Definition ContactsTable (contacts : list Contact.t) : TableElement :=
  {| aria_label := "Contacts table";
     wrapper_class := "min-h-[400px]";
     columns := [ "NOMBRE"; "EMAIL"; "TELÉFONO"; "TIPO";
                  "NOMBRE COMERCIAL"; "CÓDIGO"; "MÓVIL" ];
     rows := renderRow <$> contacts |}.

(** ** The page (app/page)

    [Home] awaits the server action and hands its result to the table.
    The page imports the action from a sibling module; either copy of
    [getContacts] fits the import, so the action is a parameter. *)

Record HomeElement : Type := mkHome {
  home_class : string;
  heading_class : string;
  heading_text : string;
  home_table : TableElement
}.

Definition Home (getContacts : Js (list Contact.t)) : Js HomeElement :=
  contacts ← getContacts;
  mret {| home_class := "p-8";
          heading_class := "text-2xl font-bold mb-4";
          heading_text := "Contactos";
          home_table := ContactsTable contacts |}.

(** ** The specification's vocabulary

    The notions the written specification uses, stated on their own so
    that the theorems below compare the code with them. *)

(** [keeps P l k]: [k] holds exactly the elements of [l] that satisfy
    [P], each as often as in [l] and in the order of [l]. *)
Inductive keeps {A : Type} (P : A → Prop) : list A → list A → Prop :=
  | keeps_nil : keeps P [] []
  | keeps_take x l k : P x → keeps P l k → keeps P (x :: l) (x :: k)
  | keeps_drop x l k : ¬ P x → keeps P l k → keeps P (x :: l) k.

(** A record whose [id] field is present and is a string. *)
Definition IdIsString (record : JsValue) : Prop :=
  ∃ props s, record = JObj props ∧ props !! "id" = Some (JStr s).

(** A record whose [id] field is present and is a non-empty string. *)
Definition IdIsNonEmptyString (record : JsValue) : Prop :=
  ∃ props s, record = JObj props ∧ props !! "id" = Some (JStr s) ∧ s ≠ "".

(** A field passes through: the output holds the input's value, and
    [undefined] when the input has no such field. *)
Definition passes (props : gmap string JsValue) (k : string) (out : JsValue) : Prop :=
  match props !! k with
  | Some v => out = v
  | None => out = JUndefined
  end.

(** The field of a DisplayContact that carries a given name. *)
Definition outField (c : Contact.t) (k : string) : JsValue :=
  if String.eqb k "id" then Contact.id c
  else if String.eqb k "customId" then Contact.customId c
  else if String.eqb k "name" then Contact.name c
  else if String.eqb k "code" then Contact.code c
  else if String.eqb k "tradeName" then Contact.tradeName c
  else if String.eqb k "email" then Contact.email c
  else if String.eqb k "mobile" then Contact.mobile c
  else if String.eqb k "phone" then Contact.phone c
  else if String.eqb k "type" then Contact.type c
  else JUndefined.

Definition passthroughFields : list string :=
  [ "id"; "customId"; "name"; "code"; "tradeName"; "email"; "mobile"; "phone" ].

(** [c] is the DisplayContact of [record]: every field of the projection
    passes through. *)
Definition DisplayOf (record : JsValue) (c : Contact.t) : Prop :=
  ∃ props, record = JObj props ∧
    ∀ k, k ∈ passthroughFields ++ ["type"] → passes props k (outField c k).

(** What the remote answers to the one request [Actions.getContacts]
    makes: the list operation, under the configured credential. *)
Definition listContactsOutcome (h : Host) : Completion JsValue :=
  core_fetch h [process_env_get h "HOLDED_API_KEY"] "/contacts" "get" JUndefined.

(** The remote call resolves to a response whose [data] is the array of
    records [data]. *)
Definition resolvesWith (h : Host) (data : list JsValue) : Prop :=
  ∃ props, listContactsOutcome h = Normal (JObj props) ∧
           props !! "data" = Some (JArr data).

(** The fetcher returns the DisplayContacts of exactly the records that
    satisfy [P], in the order of the input list. *)
Definition returnsExactly (P : JsValue → Prop) (h : Host) (w : World)
    (data : list JsValue) : Prop :=
  ∃ kept out, keeps P data kept ∧ Forall2 DisplayOf kept out ∧
              fst (Actions.getContacts h w) = Normal out.

(** The documented color table of the renderer. *)
Definition colorTable : list (string * string) :=
  [ ("client", "success"); ("supplier", "warning"); ("lead", "primary");
    ("debtor", "danger"); ("creditor", "secondary") ].

Fixpoint tableLookup (table : list (string * string)) (k : string) : option string :=
  match table with
  | [] => None
  | (k', c) :: rest => if String.eqb k k' then Some c else tableLookup rest k
  end.

(** The color the table assigns to a [type] value: the listed color for
    a listed name, the default for anything else. *)
Definition documentedColor (type : JsValue) : string :=
  match type with
  | JStr s => default "default" (tableLookup colorTable s)
  | _ => "default"
  end.

(** The chip of a rendered row: its fourth cell. *)
Definition chipOf (row : TableRowElement) : option (string * JsValue) :=
  match cells row !! 3%nat with
  | Some (Chip c) => Some (chip_color c, chip_children c)
  | _ => None
  end.

(** A host whose environment is [env] and whose remote gives the same
    outcome to every request. *)
Definition constantHost (env : gmap string string) (outcome : Completion JsValue) : Host :=
  {| process_env := env; core_fetch := λ _ _ _ _, outcome |}.

(** A response carrying [data] under its [data] key. *)
Definition response (data : list JsValue) : JsValue :=
  JObj {[ "data" := JArr data ]}.

Definition emptyWorld : World := mkWorld [] [] [].

(** ** Concrete inputs *)

(** A record whose [id] is the empty string. *)
Definition emptyIdRecord : JsValue := JObj {[ "id" := JStr "" ]}.

(** A record carrying every field of the projection. *)
Definition fullRecord : JsValue :=
  JObj (<["id" := JStr "42"]> (<["customId" := JStr "c-42"]>
       (<["name" := JStr "Acme"]> (<["code" := JStr "B123"]>
       (<["tradeName" := JStr "Acme SL"]> (<["email" := JStr "a@acme.test"]>
       (<["mobile" := JStr "600"]> (<["phone" := JStr "900"]>
       (<["type" := JStr "partner"]> ∅))))))))).

(** The records of the end-to-end scenario and the DisplayContacts it
    expects. *)
Definition scenarioData : list JsValue :=
  [ JObj (<["id" := JStr "1"]> (<["name" := JStr "Acme"]> (<["type" := JStr "client"]> ∅)));
    JObj (<["id" := JNull]> (<["name" := JStr "Bad"]> ∅));
    JObj (<["id" := JStr "3"]> (<["name" := JStr "Beta"]> (<["type" := JStr "supplier"]> ∅))) ].

Definition scenarioContacts : list Contact.t :=
  [ {| Contact.id := JStr "1"; Contact.customId := JUndefined;
       Contact.name := JStr "Acme"; Contact.code := JUndefined;
       Contact.tradeName := JUndefined; Contact.email := JUndefined;
       Contact.mobile := JUndefined; Contact.phone := JUndefined;
       Contact.type := JStr "client" |};
    {| Contact.id := JStr "3"; Contact.customId := JUndefined;
       Contact.name := JStr "Beta"; Contact.code := JUndefined;
       Contact.tradeName := JUndefined; Contact.email := JUndefined;
       Contact.mobile := JUndefined; Contact.phone := JUndefined;
       Contact.type := JStr "supplier" |} ].

(** An environment that configures a credential. *)
Definition configuredEnv : gmap string string :=
  {[ "HOLDED_API_KEY" := "configured-key" ]}.

(** ** Further vocabulary *)

(** The credential the literal-key copy carries. *)
Definition literalCredential : JsValue := JStr "964f48473d755069d293cd3227d935b1".

(** What the remote answers to the list request made under [cred]. *)
Definition listContactsOutcomeUnder (h : Host) (cred : JsValue) : Completion JsValue :=
  core_fetch h [cred] "/contacts" "get" JUndefined.

(** The colors a chip accepts. *)
Definition chipColors : list string :=
  [ "default"; "primary"; "secondary"; "success"; "warning"; "danger" ].

(** The names of the five contact types. *)
Definition listedTypes : list string :=
  [ "client"; "supplier"; "lead"; "debtor"; "creditor" ].

(** The fields the projection reads. *)
Definition projectedFields : list string := passthroughFields ++ ["type"].

(** The row of a record: keyed by the record's [id], its chip showing
    the record's [type] in the color of that type. *)
Definition RowOf (record : JsValue) (row : TableRowElement) : Prop :=
  ∃ props, record = JObj props ∧
    props !! "id" = Some (key row) ∧
    chipOf row = Some (getTypeColor (default JUndefined (props !! "type")),
                       default JUndefined (props !! "type")).

(** ** The code, step by step *)

(** The filter's verdict as a plain boolean. *)
Definition idIsString (v : JsValue) : bool :=
  match v with
  | JObj props =>
      match props !! "id" with
      | Some (JStr _) => true
      | _ => false
      end
  | _ => false
  end.

(** The projection of a record that is not nullish. *)
Definition fieldOf (v : JsValue) (k : string) : JsValue :=
  match v with
  | JObj props => default JUndefined (props !! k)
  | _ => JUndefined
  end.

Definition displayed (v : JsValue) : Contact.t :=
  Contact.mk (fieldOf v "id") (fieldOf v "customId") (fieldOf v "name")
    (fieldOf v "code") (fieldOf v "tradeName") (fieldOf v "email")
    (fieldOf v "mobile") (fieldOf v "phone") (fieldOf v "type").

(** The world after the [try] block ran up to the remote call. *)
Definition afterCall (cred : JsValue) (w : World) : World :=
  {| core_auth := [cred];
     core_calls := core_calls w ++ [SetAuth [cred]; Fetch "/contacts" "get" JUndefined];
     console := console w |}.

Lemma idIsString_spec v : idIsString v = true ↔ IdIsString v.
Proof.
  split.
  - destruct v as [| | | | | |props]; simpl; try discriminate.
    destruct (props !! "id") as [[| | | |s| |]|] eqn:E; try discriminate.
    intros _. by exists props, s.
  - intros (props & s & -> & E). simpl. by rewrite E.
Qed.

Lemma hasStringId_total v : hasStringId v = Normal (idIsString v).
Proof.
  destruct v as [| | | | | |props]; try reflexivity.
  unfold hasStringId, Js.optMember; simpl.
  by destruct (props !! "id") as [[]|].
Qed.

Lemma idIsString_not_nullish v : idIsString v = true → Js.nullish v = false.
Proof. by destruct v. Qed.

Lemma Array_filter_hasStringId items :
  Js.Array_filter hasStringId items = Normal (List.filter idIsString items).
Proof.
  induction items as [|v items IH]; [reflexivity|].
  simpl. rewrite hasStringId_total. simpl. rewrite IH. simpl.
  by destruct (idIsString v).
Qed.

Lemma keeps_filter items : keeps IdIsString items (List.filter idIsString items).
Proof.
  induction items as [|v items IH]; simpl; [constructor|].
  destruct (idIsString v) eqn:E.
  - apply keeps_take; [by apply idIsString_spec | exact IH].
  - apply keeps_drop; [|exact IH].
    intros H. apply idIsString_spec in H. congruence.
Qed.

Lemma keeps_unique {A} (P : A → Prop) l k1 k2 :
  keeps P l k1 → keeps P l k2 → k1 = k2.
Proof.
  intros H1. revert k2.
  induction H1 as [|x l k Hx _ IH|x l k Hx _ IH]; intros k2 H2;
    inversion H2; subst; try contradiction; auto.
  f_equal. by apply IH.
Qed.

Lemma keeps_Forall {A} (P : A → Prop) l k : keeps P l k → Forall P k.
Proof. induction 1; by try constructor. Qed.

Lemma toContact_not_nullish v :
  Js.nullish v = false → toContact v = Normal (displayed v).
Proof. by destruct v. Qed.

Lemma Array_map_toContact kept :
  Forall (λ v, Js.nullish v = false) kept →
  Js.Array_map toContact kept = Normal (displayed <$> kept).
Proof.
  unfold Js.Array_map.
  induction 1 as [|v kept Hv _ IH]; [reflexivity|].
  simpl. rewrite (toContact_not_nullish v Hv). simpl.
  by rewrite IH.
Qed.

Lemma filter_not_nullish items :
  Forall (λ v, Js.nullish v = false) (List.filter idIsString items).
Proof.
  apply List.Forall_forall. intros v Hv.
  apply List.filter_In in Hv as [_ Hv]. by apply idIsString_not_nullish.
Qed.

Lemma filterAndMap_data props data :
  props !! "data" = Some (JArr data) →
  filterAndMap (JObj props) = Normal (displayed <$> List.filter idIsString data).
Proof.
  intros E. unfold filterAndMap. simpl. rewrite E. simpl.
  rewrite Array_filter_hasStringId. simpl.
  apply Array_map_toContact, filter_not_nullish.
Qed.

Lemma tryBlock_unfold h w :
  Actions.tryBlock h w =
    let w' := afterCall (process_env_get h "HOLDED_API_KEY") w in
    match listContactsOutcome h with
    | Normal contacts => (filterAndMap contacts, w')
    | Throw e => (Throw e, w')
    end.
Proof.
  unfold Actions.tryBlock, listContactsOutcome, afterCall, mbind, Js_bind,
    holded.auth, holded.listContacts, pure. simpl.
  rewrite <- app_assoc. simpl.
  by destruct (core_fetch h _ _ _ _).
Qed.

Lemma literal_tryBlock_unfold h w :
  LiteralKeyActions.tryBlock h w =
    let cred := JStr "964f48473d755069d293cd3227d935b1" in
    match core_fetch h [cred] "/contacts" "get" JUndefined with
    | Normal contacts => (filterAndMap contacts, afterCall cred w)
    | Throw e => (Throw e, afterCall cred w)
    end.
Proof.
  unfold LiteralKeyActions.tryBlock, afterCall, mbind, Js_bind,
    holded.auth, holded.listContacts, pure. simpl.
  rewrite <- app_assoc. simpl.
  by destruct (core_fetch h _ _ _ _).
Qed.

Lemma getContacts_resolved h w data :
  resolvesWith h data →
  Actions.tryBlock h w =
    (Normal (displayed <$> List.filter idIsString data),
     afterCall (process_env_get h "HOLDED_API_KEY") w) ∧
  Actions.getContacts h w = Actions.tryBlock h w.
Proof.
  intros (props & Hresp & Hdata).
  assert (Actions.tryBlock h w =
    (Normal (displayed <$> List.filter idIsString data),
     afterCall (process_env_get h "HOLDED_API_KEY") w)) as Htry.
  { rewrite tryBlock_unfold. simpl. rewrite Hresp.
    by rewrite (filterAndMap_data props data Hdata). }
  split; [exact Htry|].
  unfold Actions.getContacts, tryCatch. by rewrite Htry.
Qed.

Lemma passes_fieldOf props k : passes props k (fieldOf (JObj props) k).
Proof. unfold passes, fieldOf. by destruct (props !! k). Qed.

Lemma DisplayOf_displayed v : IdIsString v → DisplayOf v (displayed v).
Proof.
  intros (props & s & -> & _). exists props. split; [done|].
  intros k Hk.
  repeat (apply elem_of_cons in Hk as [->|Hk]; [apply passes_fieldOf|]).
  by apply elem_of_nil in Hk.
Qed.

Lemma Forall2_DisplayOf kept :
  Forall IdIsString kept → Forall2 DisplayOf kept (displayed <$> kept).
Proof.
  induction 1; constructor; [by apply DisplayOf_displayed | done].
Qed.

Lemma resolvesWith_constant env data :
  resolvesWith (constantHost env (Normal (response data))) data.
Proof.
  exists {[ "data" := JArr data ]}. split; [reflexivity|].
  apply lookup_singleton_eq.
Qed.

Lemma getContacts_total h w : ∃ out, fst (Actions.getContacts h w) = Normal out.
Proof.
  unfold Actions.getContacts, tryCatch.
  destruct (Actions.tryBlock h w) as [[out|e] w']; simpl; eauto.
Qed.

Lemma getContacts_caught h w e :
  fst (Actions.tryBlock h w) = Throw e →
  Actions.getContacts h w =
    (Normal [],
     {| core_auth := core_auth (snd (Actions.tryBlock h w));
        core_calls := core_calls (snd (Actions.tryBlock h w));
        console := console (snd (Actions.tryBlock h w))
                     ++ [("Error fetching contacts:", e)] |}).
Proof.
  unfold Actions.getContacts, tryCatch.
  destruct (Actions.tryBlock h w) as [[out|e'] w']; simpl; [discriminate|].
  by intros [= ->].
Qed.

Lemma filterAndMap_bad_shape contacts :
  (∀ items, Js.member contacts "data" ≠ Normal (JArr items)) →
  ∃ e, filterAndMap contacts = Throw e.
Proof.
  intros Hshape. unfold filterAndMap.
  destruct (Js.member contacts "data") as [data|e] eqn:E; simpl; [|eauto].
  destruct data; simpl; eauto.
  by destruct (Hshape items).
Qed.

(** ** The identifier filter *)

(** C1, as the specification words it, fails: when the remote returns one
    record whose [id] is the empty string, the fetcher does not return
    exactly the records with a non-empty string [id]. *)
Lemma identifier_filter_nonempty_refuted :
  resolvesWith (constantHost ∅ (Normal (response [emptyIdRecord]))) [emptyIdRecord] ∧
  ¬ returnsExactly IdIsNonEmptyString
      (constantHost ∅ (Normal (response [emptyIdRecord]))) emptyWorld [emptyIdRecord].
Proof.
  split; [apply resolvesWith_constant|].
  intros (kept & out & Hkeeps & Hdisp & Hret).
  destruct (getContacts_resolved _ emptyWorld _
              (resolvesWith_constant ∅ [emptyIdRecord])) as [Htry Hget].
  rewrite Hget, Htry in Hret. simpl in Hret.
  inversion Hkeeps as [|x l k HP Hrest|x l k HP Hrest]; subst.
  - destruct HP as (props & s & Hrec & Hid & Hne).
    injection Hrec as <-. rewrite lookup_singleton_eq in Hid.
    injection Hid as <-. by apply Hne.
  - inversion Hrest; subst. inversion Hdisp; subst. discriminate Hret.
Qed.

(** C1 (amended): for every input list, the fetcher returns the
    DisplayContacts of exactly the records whose [id] field is present
    and is a string, the empty string included, in the order of the
    input list; every other entry is dropped. *)
Theorem identifier_filter h w data :
  resolvesWith h data → returnsExactly IdIsString h w data.
Proof.
  intros Hres.
  destruct (getContacts_resolved h w data Hres) as [Htry Hget].
  exists (List.filter idIsString data), (displayed <$> List.filter idIsString data).
  split; [apply keeps_filter|]. split.
  - apply Forall2_DisplayOf, (keeps_Forall _ data), keeps_filter.
  - by rewrite Hget, Htry.
Qed.

Lemma identifier_filter_witness :
  resolvesWith (constantHost ∅ (Normal (response [emptyIdRecord; JNull]))) [emptyIdRecord; JNull] ∧
  returnsExactly IdIsString
    (constantHost ∅ (Normal (response [emptyIdRecord; JNull]))) emptyWorld
    [emptyIdRecord; JNull].
Proof.
  split; [apply resolvesWith_constant|].
  apply (identifier_filter _ emptyWorld [emptyIdRecord; JNull]).
  apply resolvesWith_constant.
Defined.

(** C10: there is an input list with a record whose [id] is the empty
    string that the fetcher retains, so an output DisplayContact can
    have an empty [id]. *)
Theorem empty_id_is_retained :
  ∃ data props,
    JObj props ∈ data ∧ props !! "id" = Some (JStr "") ∧
    ∀ env w, ∃ out c,
      fst (Actions.getContacts (constantHost env (Normal (response data))) w) = Normal out ∧
      c ∈ out ∧ DisplayOf (JObj props) c ∧ Contact.id c = JStr "".
Proof.
  exists [JNull; emptyIdRecord], {[ "id" := JStr "" ]}.
  split; [apply list_elem_of_further, list_elem_of_here|].
  split; [apply lookup_singleton_eq|].
  intros env w.
  destruct (getContacts_resolved _ w _
              (resolvesWith_constant env [JNull; emptyIdRecord])) as [Htry Hget].
  exists [displayed emptyIdRecord], (displayed emptyIdRecord).
  split; [by rewrite Hget, Htry|].
  split; [apply list_elem_of_here|].
  split; [|reflexivity].
  apply DisplayOf_displayed. exists {[ "id" := JStr "" ]}, "".
  split; [reflexivity | apply lookup_singleton_eq].
Qed.

(** ** Failure masking *)

(** C2: [getContacts] never hands an exception to its caller; when the
    remote call rejects, when the response has not the expected shape,
    or when anything else in the [try] block throws, it logs the error
    and returns the empty list. *)
Theorem failure_masking h w :
  (∃ out, fst (Actions.getContacts h w) = Normal out) ∧
  (∀ e, listContactsOutcome h = Throw e →
        fst (Actions.getContacts h w) = Normal [] ∧
        console (snd (Actions.getContacts h w))
          = console w ++ [("Error fetching contacts:", e)]) ∧
  (∀ contacts, listContactsOutcome h = Normal contacts →
        (∀ items, Js.member contacts "data" ≠ Normal (JArr items)) →
        fst (Actions.getContacts h w) = Normal []) ∧
  (∀ e, fst (Actions.tryBlock h w) = Throw e →
        fst (Actions.getContacts h w) = Normal [] ∧
        console (snd (Actions.getContacts h w))
          = console (snd (Actions.tryBlock h w)) ++ [("Error fetching contacts:", e)]).
Proof.
  split; [apply getContacts_total|].
  assert (∀ e, fst (Actions.tryBlock h w) = Throw e →
        fst (Actions.getContacts h w) = Normal [] ∧
        console (snd (Actions.getContacts h w))
          = console (snd (Actions.tryBlock h w)) ++ [("Error fetching contacts:", e)])
    as Hcaught.
  { intros e He. by rewrite (getContacts_caught h w e He). }
  split; [|split; [|exact Hcaught]].
  - intros e He.
    assert (Actions.tryBlock h w
            = (Throw e, afterCall (process_env_get h "HOLDED_API_KEY") w)) as Htry.
    { rewrite tryBlock_unfold. simpl. by rewrite He. }
    destruct (Hcaught e) as [H1 H2]; [by rewrite Htry|].
    split; [exact H1|]. by rewrite H2, Htry.
  - intros contacts Hc Hshape.
    destruct (filterAndMap_bad_shape contacts Hshape) as [e He].
    apply (Hcaught e). rewrite tryBlock_unfold. simpl. by rewrite Hc, He.
Qed.

Lemma failure_masking_witness :
  listContactsOutcome (constantHost ∅ (Throw (Rejection (JStr "401 Unauthorized"))))
    = Throw (Rejection (JStr "401 Unauthorized")) ∧
  fst (Actions.getContacts
         (constantHost ∅ (Throw (Rejection (JStr "401 Unauthorized")))) emptyWorld)
    = Normal [].
Proof.
  split; [reflexivity|].
  apply (proj1 (proj2 (failure_masking
            (constantHost ∅ (Throw (Rejection (JStr "401 Unauthorized")))) emptyWorld))
          (Rejection (JStr "401 Unauthorized"))).
  reflexivity.
Defined.

(** ** The color table *)

(** C3: [getTypeColor] gives each of the five contact types its
    documented color and every other value, [undefined] included, the
    default color. *)
Theorem color_mapping :
  getTypeColor (JStr "client") = "success" ∧
  getTypeColor (JStr "supplier") = "warning" ∧
  getTypeColor (JStr "lead") = "primary" ∧
  getTypeColor (JStr "debtor") = "danger" ∧
  getTypeColor (JStr "creditor") = "secondary" ∧
  getTypeColor JUndefined = "default" ∧
  ∀ type, getTypeColor type = documentedColor type.
Proof.
  do 6 (split; [reflexivity|]).
  intros [| |b|x|s|items|props]; try reflexivity.
  - by destruct b.
  - unfold getTypeColor. simpl. by destruct (negb _).
  - unfold getTypeColor, documentedColor. simpl.
    destruct (String.eqb_spec s "") as [->|_]; [reflexivity|]. simpl.
    repeat (destruct (String.eqb s _); [reflexivity|]). reflexivity.
Qed.

(** ** Field passthrough *)

Lemma outField_displayed v k :
  k ∈ passthroughFields ++ ["type"] → outField (displayed v) k = fieldOf v k.
Proof.
  intros Hk.
  repeat (apply elem_of_cons in Hk as [->|Hk]; [reflexivity|]).
  by apply elem_of_nil in Hk.
Qed.

Lemma kept_lookup data i record :
  List.filter idIsString data !! i = Some record →
  ∃ props s, record = JObj props ∧ props !! "id" = Some (JStr s) ∧
    (displayed <$> List.filter idIsString data) !! i = Some (displayed record).
Proof.
  intros Hi.
  assert (IdIsString record) as (props & s & -> & Hid).
  { apply idIsString_spec.
    apply list_elem_of_lookup_2, list_elem_of_In, List.filter_In in Hi.
    by destruct Hi. }
  exists props, s. split; [done|]. split; [done|].
  by rewrite list_lookup_fmap, Hi.
Qed.

(** C4: for every retained input record, each of the fields id,
    customId, name, code, tradeName, email, mobile and phone of the
    DisplayContact at the same position holds the record's value
    unchanged, and [undefined] when the record has no such field. *)
Theorem field_passthrough h w data :
  resolvesWith h data →
  ∃ kept out,
    keeps IdIsString data kept ∧
    fst (Actions.getContacts h w) = Normal out ∧
    length out = length kept ∧
    ∀ i record, kept !! i = Some record →
      ∃ props c, record = JObj props ∧ out !! i = Some c ∧
        ∀ k, k ∈ passthroughFields →
          (∀ v, props !! k = Some v → outField c k = v) ∧
          (props !! k = None → outField c k = JUndefined).
Proof.
  intros Hres.
  destruct (getContacts_resolved h w data Hres) as [Htry Hget].
  exists (List.filter idIsString data), (displayed <$> List.filter idIsString data).
  split; [apply keeps_filter|].
  split; [by rewrite Hget, Htry|].
  split; [apply length_fmap|].
  intros i record Hi.
  destruct (kept_lookup data i record Hi) as (props & s & -> & _ & Hout).
  exists props, (displayed (JObj props)). split; [done|]. split; [done|].
  intros k Hk.
  rewrite outField_displayed by (apply elem_of_app; by left).
  simpl. split.
  - by intros v ->.
  - by intros ->.
Qed.

Lemma field_passthrough_witness :
  resolvesWith (constantHost ∅ (Normal (response [fullRecord; emptyIdRecord])))
    [fullRecord; emptyIdRecord] ∧
  ∃ kept out,
    keeps IdIsString [fullRecord; emptyIdRecord] kept ∧
    fst (Actions.getContacts
           (constantHost ∅ (Normal (response [fullRecord; emptyIdRecord]))) emptyWorld)
      = Normal out ∧
    length out = length kept ∧
    ∀ i record, kept !! i = Some record →
      ∃ props c, record = JObj props ∧ out !! i = Some c ∧
        ∀ k, k ∈ passthroughFields →
          (∀ v, props !! k = Some v → outField c k = v) ∧
          (props !! k = None → outField c k = JUndefined).
Proof.
  split; [apply resolvesWith_constant|].
  apply (field_passthrough _ emptyWorld [fullRecord; emptyIdRecord]).
  apply resolvesWith_constant.
Defined.

(** C8: for every retained input record, the [type] field is copied
    into the DisplayContact at the same position as it is, whatever its
    value: nothing checks it against the five listed contact types, so
    a string outside them passes through unchanged. *)
Theorem type_passes_unvalidated h w data :
  resolvesWith h data →
  ∃ kept out,
    keeps IdIsString data kept ∧
    fst (Actions.getContacts h w) = Normal out ∧
    ∀ i props, kept !! i = Some (JObj props) →
      ∃ c, out !! i = Some c ∧
        ∀ t, props !! "type" = Some t → Contact.type c = t.
Proof.
  intros Hres.
  destruct (getContacts_resolved h w data Hres) as [Htry Hget].
  exists (List.filter idIsString data), (displayed <$> List.filter idIsString data).
  split; [apply keeps_filter|].
  split; [by rewrite Hget, Htry|].
  intros i props Hi.
  destruct (kept_lookup data i _ Hi) as (props' & s & _ & _ & Hout).
  exists (displayed (JObj props)). split; [done|].
  intros t Ht. simpl. by rewrite Ht.
Qed.

Lemma type_passes_unvalidated_witness :
  resolvesWith (constantHost ∅ (Normal (response [fullRecord]))) [fullRecord] ∧
  ∃ kept out,
    keeps IdIsString [fullRecord] kept ∧
    fst (Actions.getContacts (constantHost ∅ (Normal (response [fullRecord]))) emptyWorld)
      = Normal out ∧
    ∀ i props, kept !! i = Some (JObj props) →
      ∃ c, out !! i = Some c ∧
        ∀ t, props !! "type" = Some t → Contact.type c = t.
Proof.
  split; [apply resolvesWith_constant|].
  apply (type_passes_unvalidated _ emptyWorld [fullRecord]).
  apply resolvesWith_constant.
Defined.

(** The record above has a [type] outside the five listed ones; it comes
    out as it went in, and the renderer gives it the default color. *)
Example unlisted_type_run :
  Contact.type <$> default [] (match fst (Actions.getContacts
      (constantHost ∅ (Normal (response [fullRecord]))) emptyWorld) with
    | Normal out => Some out | Throw _ => None end) = [JStr "partner"] ∧
  getTypeColor (JStr "partner") = "default".
Proof. split; vm_compute; reflexivity. Qed.

(** ** Null and undefined entries *)

(** C9: on a null or undefined entry of the data array the filter's
    predicate evaluates, without throwing, to false (it throws on no
    value at all); such entries are dropped, the [try] block completes
    normally and the error branch is not reached. *)
Theorem nullish_entries_are_dropped h w data :
  resolvesWith h data →
  (∀ v, ∃ b, hasStringId v = Normal b) ∧
  (∀ v, Js.nullish v = true → hasStringId v = Normal false) ∧
  ∃ kept out,
    keeps IdIsString data kept ∧
    Forall (λ v, Js.nullish v = false) kept ∧
    Forall2 DisplayOf kept out ∧
    fst (Actions.tryBlock h w) = Normal out ∧
    Actions.getContacts h w = Actions.tryBlock h w ∧
    console (snd (Actions.getContacts h w)) = console w.
Proof.
  intros Hres.
  split; [intros v; eexists; apply hasStringId_total|].
  split; [by intros [] Hv|].
  destruct (getContacts_resolved h w data Hres) as [Htry Hget].
  exists (List.filter idIsString data), (displayed <$> List.filter idIsString data).
  split; [apply keeps_filter|].
  split; [apply filter_not_nullish|].
  split; [apply Forall2_DisplayOf, (keeps_Forall _ data), keeps_filter|].
  split; [by rewrite Htry|].
  split; [exact Hget|].
  by rewrite Hget, Htry.
Qed.

Lemma nullish_entries_are_dropped_witness :
  resolvesWith
    (constantHost ∅ (Normal (response [JNull; fullRecord; JUndefined])))
    [JNull; fullRecord; JUndefined] ∧
  ∃ kept out,
    keeps IdIsString [JNull; fullRecord; JUndefined] kept ∧
    Forall (λ v, Js.nullish v = false) kept ∧
    Forall2 DisplayOf kept out ∧
    fst (Actions.tryBlock
           (constantHost ∅ (Normal (response [JNull; fullRecord; JUndefined])))
           emptyWorld) = Normal out ∧
    Actions.getContacts
      (constantHost ∅ (Normal (response [JNull; fullRecord; JUndefined]))) emptyWorld
      = Actions.tryBlock
          (constantHost ∅ (Normal (response [JNull; fullRecord; JUndefined]))) emptyWorld ∧
    console (snd (Actions.getContacts
      (constantHost ∅ (Normal (response [JNull; fullRecord; JUndefined]))) emptyWorld))
      = console emptyWorld.
Proof.
  split; [apply resolvesWith_constant|].
  apply (nullish_entries_are_dropped _ emptyWorld [JNull; fullRecord; JUndefined]).
  apply resolvesWith_constant.
Defined.

(** With a null and an undefined entry around one good record, only the
    good record comes out and nothing is logged. *)
Example nullish_entries_run :
  Actions.getContacts
    (constantHost ∅ (Normal (response [JNull; fullRecord; JUndefined]))) emptyWorld
  = (Normal [displayed fullRecord], afterCall JUndefined emptyWorld).
Proof. vm_compute. reflexivity. Qed.

(** ** The table *)

(** C5: for every list of N DisplayContacts, [ContactsTable] produces
    exactly N rows, the i-th row rendering the i-th record, and the keys
    of the rows are the ids of the records, in order. *)
Theorem row_per_record contacts :
  length (rows (ContactsTable contacts)) = length contacts ∧
  (∀ i, rows (ContactsTable contacts) !! i = renderRow <$> contacts !! i) ∧
  key <$> rows (ContactsTable contacts) = Contact.id <$> contacts.
Proof.
  unfold ContactsTable. simpl.
  split; [apply length_fmap|].
  split; [intros i; apply list_lookup_fmap|].
  induction contacts as [|c contacts IH]; [reflexivity|].
  simpl. by f_equal.
Qed.

(** ** The end-to-end scenario *)

(** C6: for the response with the records 1 (Acme, client), null-id
    (Bad) and 3 (Beta, supplier), the fetcher returns the DisplayContacts
    of records 1 and 3, every field they lack being [undefined], and the
    table renders them as two rows whose chips are success with label
    client and warning with label supplier. *)
Theorem end_to_end_scenario env w :
  fst (Actions.getContacts (constantHost env (Normal (response scenarioData))) w)
    = Normal scenarioContacts ∧
  length (rows (ContactsTable scenarioContacts)) = 2%nat ∧
  key <$> rows (ContactsTable scenarioContacts) = [JStr "1"; JStr "3"] ∧
  chipOf <$> rows (ContactsTable scenarioContacts)
    = [Some ("success", JStr "client"); Some ("warning", JStr "supplier")].
Proof.
  split; [|by vm_compute].
  destruct (getContacts_resolved _ w _ (resolvesWith_constant env scenarioData))
    as [Htry Hget].
  rewrite Hget, Htry. vm_compute. reflexivity.
Qed.

(** ** The credential *)

Lemma getContacts_calls h w :
  core_calls (snd (Actions.getContacts h w))
    = core_calls w ++ [SetAuth [process_env_get h "HOLDED_API_KEY"];
                       Fetch "/contacts" "get" JUndefined].
Proof.
  unfold Actions.getContacts, tryCatch. rewrite tryBlock_unfold. simpl.
  destruct (listContactsOutcome h) as [contacts|e]; [|reflexivity].
  by destruct (filterAndMap contacts).
Qed.

Lemma literal_getContacts_calls h w :
  core_calls (snd (LiteralKeyActions.getContacts h w))
    = core_calls w ++ [SetAuth [JStr "964f48473d755069d293cd3227d935b1"];
                       Fetch "/contacts" "get" JUndefined].
Proof.
  unfold LiteralKeyActions.getContacts, tryCatch.
  rewrite literal_tryBlock_unfold. simpl.
  destruct (core_fetch h _ _ _ _) as [contacts|e]; [|reflexivity].
  by destruct (filterAndMap contacts).
Qed.

(** The two copies differ in the credential only: the copy with the
    literal behaves as the other one does under an environment that
    configures the literal, so what is proved of [Actions.getContacts]
    for every host carries over to it. *)
Lemma literal_copy_as_configured h w :
  LiteralKeyActions.getContacts h w
    = Actions.getContacts
        (mkHost {[ "HOLDED_API_KEY" := "964f48473d755069d293cd3227d935b1" ]}
                (core_fetch h)) w.
Proof.
  unfold LiteralKeyActions.getContacts, Actions.getContacts, tryCatch.
  by rewrite literal_tryBlock_unfold, tryBlock_unfold.
Qed.

(** C7: under an environment whose HOLDED_API_KEY is "configured-key",
    the copy of [getContacts] that carries a string literal passes that
    literal to [auth] and not the configured credential, whereas the
    other copy passes the configured credential. *)
Theorem literal_credential_ignores_environment fetch w :
  process_env_get (mkHost configuredEnv fetch) "HOLDED_API_KEY" = JStr "configured-key" ∧
  core_calls (snd (LiteralKeyActions.getContacts (mkHost configuredEnv fetch) w))
    = core_calls w ++ [SetAuth [JStr "964f48473d755069d293cd3227d935b1"];
                       Fetch "/contacts" "get" JUndefined] ∧
  core_calls (snd (Actions.getContacts (mkHost configuredEnv fetch) w))
    = core_calls w ++ [SetAuth [JStr "configured-key"];
                       Fetch "/contacts" "get" JUndefined].
Proof.
  split; [reflexivity|].
  split; [apply literal_getContacts_calls|].
  by rewrite getContacts_calls.
Qed.

(** * Further properties of the code *)

(** ** The server action in any world *)

Lemma filterAndMap_cases contacts :
  (∃ e, filterAndMap contacts = Throw e) ∨
  (∃ data, Js.member contacts "data" = Normal (JArr data) ∧
           filterAndMap contacts = Normal (displayed <$> List.filter idIsString data)).
Proof.
  unfold filterAndMap.
  destruct (Js.member contacts "data") as [d|e]; simpl; [|eauto].
  destruct d; simpl; eauto.
  right. exists items. split; [done|].
  rewrite Array_filter_hasStringId. simpl.
  apply Array_map_toContact, filter_not_nullish.
Qed.

Lemma getContacts_cases h w :
  (∃ out, Actions.tryBlock h w
            = (Normal out, afterCall (process_env_get h "HOLDED_API_KEY") w) ∧
          Actions.getContacts h w = Actions.tryBlock h w) ∨
  (∃ e, Actions.tryBlock h w
          = (Throw e, afterCall (process_env_get h "HOLDED_API_KEY") w) ∧
        Actions.getContacts h w
          = (Normal [],
             {| core_auth := [process_env_get h "HOLDED_API_KEY"];
                core_calls := core_calls w ++
                  [SetAuth [process_env_get h "HOLDED_API_KEY"];
                   Fetch "/contacts" "get" JUndefined];
                console := console w ++ [("Error fetching contacts:", e)] |})).
Proof.
  unfold Actions.getContacts, tryCatch. rewrite tryBlock_unfold. simpl.
  destruct (listContactsOutcome h) as [contacts|e]; [|right; eauto].
  destruct (filterAndMap contacts) as [out|e]; [left|right]; eauto.
Qed.

Lemma displayed_id_string v : idIsString v = true → ∃ s, Contact.id (displayed v) = JStr s.
Proof.
  intros Hv. apply idIsString_spec in Hv as (props & s & -> & Hid).
  exists s. simpl. by rewrite Hid.
Qed.


(** X2: every invocation of [getContacts], whether it succeeds or
    fails, makes exactly one [auth] call followed by exactly one
    request, a GET of /contacts without parameters: there is no retry,
    no second page and no other endpoint. *)
Theorem one_request_per_invocation h w :
  core_calls (snd (Actions.getContacts h w))
    = core_calls w ++ [SetAuth [process_env_get h "HOLDED_API_KEY"];
                       Fetch "/contacts" "get" JUndefined] ∧
  core_calls (snd (LiteralKeyActions.getContacts h w))
    = core_calls w ++ [SetAuth [literalCredential];
                       Fetch "/contacts" "get" JUndefined].
Proof. split; [apply getContacts_calls | apply literal_getContacts_calls]. Qed.

(** X3: [getContacts] never alters the lines already on the console and
    adds at most one; when it adds one, the result is the empty list,
    so a non-empty result means nothing was logged. *)
Theorem console_discipline h w :
  console (snd (Actions.getContacts h w)) = console w ∨
  ∃ e, console (snd (Actions.getContacts h w))
         = console w ++ [("Error fetching contacts:", e)] ∧
       fst (Actions.getContacts h w) = Normal [].
Proof.
  destruct (getContacts_cases h w) as [(out & Htry & Hget)|(e & Htry & Hget)].
  - left. by rewrite Hget, Htry.
  - right. exists e. by rewrite Hget.
Qed.

(** X4: in every world and against every remote, each contact that
    [getContacts] returns has a string as its [id]: the filter's type
    guard holds of everything that reaches the caller. *)
Theorem returned_ids_are_strings h w :
  ∃ out, fst (Actions.getContacts h w) = Normal out ∧
         Forall (λ c, ∃ s, Contact.id c = JStr s) out.
Proof.
  destruct (getContacts_cases h w) as [(out & Htry & Hget)|(e & Htry & Hget)].
  - exists out. split; [by rewrite Hget, Htry|].
    rewrite tryBlock_unfold in Htry. simpl in Htry.
    destruct (listContactsOutcome h) as [contacts|e]; [|discriminate].
    destruct (filterAndMap_cases contacts) as [(e & He)|(data & _ & Hd)].
    + rewrite He in Htry. discriminate.
    + rewrite Hd in Htry. injection Htry as <-.
      apply Forall_fmap, List.Forall_forall. intros v Hv.
      apply List.filter_In in Hv as [_ Hv]. by apply displayed_id_string.
  - exists []. split; [by rewrite Hget | constructor].
Qed.




Lemma filter_length_all data :
  length (List.filter idIsString data) = length data ↔ Forall IdIsString data.
Proof.
  induction data as [|v data IH]; simpl.
  - split; [constructor | reflexivity].
  - pose proof (List.filter_length_le idIsString data) as Hle.
    destruct (idIsString v) eqn:E; simpl.
    + split.
      * intros [= Hlen]. constructor; [by apply idIsString_spec | by apply IH].
      * intros Hall. inversion Hall; subst. f_equal. by apply IH.
    + split; [lia|].
      intros Hall. inversion Hall as [|? ? Hv _]; subst.
      apply idIsString_spec in Hv. congruence.
Qed.

(** X6: [getContacts] returns at most as many contacts as the remote
    returned records, and exactly as many if and only if every record
    has a string [id]. *)
Theorem output_length h w data :
  resolvesWith h data →
  ∃ out, fst (Actions.getContacts h w) = Normal out ∧
         (length out ≤ length data)%nat ∧
         (length out = length data ↔ Forall IdIsString data).
Proof.
  intros Hres.
  destruct (getContacts_resolved h w data Hres) as [Htry Hget].
  exists (displayed <$> List.filter idIsString data).
  split; [by rewrite Hget, Htry|].
  rewrite length_fmap. split.
  - apply List.filter_length_le.
  - apply filter_length_all.
Qed.

Lemma output_length_witness :
  ∃ out,
    fst (Actions.getContacts
           (constantHost ∅ (Normal (response [fullRecord; JNull]))) emptyWorld)
      = Normal out ∧
    (length out ≤ length [fullRecord; JNull])%nat ∧
    (length out = length [fullRecord; JNull] ↔ Forall IdIsString [fullRecord; JNull]).
Proof.
  apply (output_length _ emptyWorld [fullRecord; JNull]).
  apply resolvesWith_constant.
Defined.

(** X7: the projection reads the nine fields and nothing else: two
    records that agree on them give the same DisplayContact, whatever
    other fields they carry. *)
Theorem other_fields_ignored props1 props2 :
  (∀ k, k ∈ projectedFields → props1 !! k = props2 !! k) →
  toContact (JObj props1) = toContact (JObj props2).
Proof.
  intros Hagree. unfold toContact. simpl.
  assert (∀ k, k ∈ projectedFields →
            default JUndefined (props1 !! k) = default JUndefined (props2 !! k)) as H.
  { intros k Hk. by rewrite (Hagree k Hk). }
  rewrite !H; [reflexivity|..]; unfold projectedFields, passthroughFields; simpl;
    repeat first [apply list_elem_of_here | apply list_elem_of_further].
Qed.

Lemma other_fields_ignored_witness :
  toContact (JObj (<["iban" := JStr "ES00"]> {[ "id" := JStr "7" ]}))
    = toContact (JObj {[ "id" := JStr "7" ]}).
Proof.
  apply (other_fields_ignored (<["iban" := JStr "ES00"]> {[ "id" := JStr "7" ]})
                              {[ "id" := JStr "7" ]}).
  intros k Hk. apply lookup_insert_ne.
  unfold projectedFields, passthroughFields in Hk. simpl in Hk.
  repeat (apply elem_of_cons in Hk as [->|Hk]; [discriminate|]).
  by apply elem_of_nil in Hk.
Defined.

(** X8: filtering and projecting distributes over concatenation: the
    result for two arrays joined is the result for the first followed
    by the result for the second, so no entry affects how another is
    treated. *)
Theorem filterAndMap_app data1 data2 :
  ∃ out1 out2,
    filterAndMap (response data1) = Normal out1 ∧
    filterAndMap (response data2) = Normal out2 ∧
    filterAndMap (response (data1 ++ data2)) = Normal (out1 ++ out2).
Proof.
  exists (displayed <$> List.filter idIsString data1),
         (displayed <$> List.filter idIsString data2).
  unfold response.
  rewrite !(filterAndMap_data _ _ (lookup_singleton_eq _ _)).
  rewrite List.filter_app, fmap_app. auto.
Qed.

(** ** The copy with the literal credential *)

Lemma literal_host_resolves h props data :
  listContactsOutcomeUnder h literalCredential = Normal (JObj props) →
  props !! "data" = Some (JArr data) →
  resolvesWith
    (mkHost {[ "HOLDED_API_KEY" := "964f48473d755069d293cd3227d935b1" ]} (core_fetch h))
    data.
Proof. intros Hresp Hdata. exists props. by split. Qed.

(** X9: the copy of [getContacts] with the literal credential filters
    and projects as the other copy does: when the remote resolves the
    request made under the literal with an array, it returns the
    DisplayContacts of exactly the records with a string [id], in
    order, and logs nothing. *)
Theorem literal_copy_identifier_filter h w props data :
  listContactsOutcomeUnder h literalCredential = Normal (JObj props) →
  props !! "data" = Some (JArr data) →
  ∃ kept out,
    keeps IdIsString data kept ∧ Forall2 DisplayOf kept out ∧
    fst (LiteralKeyActions.getContacts h w) = Normal out ∧
    console (snd (LiteralKeyActions.getContacts h w)) = console w.
Proof.
  intros Hresp Hdata.
  rewrite literal_copy_as_configured.
  destruct (getContacts_resolved _ w data (literal_host_resolves h props data Hresp Hdata))
    as [Htry Hget].
  exists (List.filter idIsString data), (displayed <$> List.filter idIsString data).
  split; [apply keeps_filter|].
  split; [apply Forall2_DisplayOf, (keeps_Forall _ data), keeps_filter|].
  by rewrite Hget, Htry.
Qed.

Lemma literal_copy_identifier_filter_witness :
  ∃ kept out,
    keeps IdIsString [JNull; fullRecord] kept ∧ Forall2 DisplayOf kept out ∧
    fst (LiteralKeyActions.getContacts
           (constantHost ∅ (Normal (response [JNull; fullRecord]))) emptyWorld)
      = Normal out ∧
    console (snd (LiteralKeyActions.getContacts
           (constantHost ∅ (Normal (response [JNull; fullRecord]))) emptyWorld))
      = console emptyWorld.
Proof.
  apply (literal_copy_identifier_filter
           (constantHost ∅ (Normal (response [JNull; fullRecord]))) emptyWorld
           {[ "data" := JArr [JNull; fullRecord] ]} [JNull; fullRecord]).
  - reflexivity.
  - apply lookup_singleton_eq.
Defined.

(** X10: the copy with the literal credential masks failures as the
    other copy does: it never hands an exception to its caller, and
    when the remote rejects the request made under the literal it
    returns the empty list and logs the rejection. *)
Theorem literal_copy_failure_masking h w :
  (∃ out, fst (LiteralKeyActions.getContacts h w) = Normal out) ∧
  ∀ e, listContactsOutcomeUnder h literalCredential = Throw e →
       fst (LiteralKeyActions.getContacts h w) = Normal [] ∧
       console (snd (LiteralKeyActions.getContacts h w))
         = console w ++ [("Error fetching contacts:", e)].
Proof.
  rewrite literal_copy_as_configured.
  split; [apply getContacts_total|].
  intros e He.
  assert (listContactsOutcome
            (mkHost {[ "HOLDED_API_KEY" := "964f48473d755069d293cd3227d935b1" ]}
                    (core_fetch h)) = Throw e) as He' by exact He.
  unfold Actions.getContacts, tryCatch. rewrite tryBlock_unfold. cbv zeta.
  rewrite He'. by split.
Qed.

Lemma literal_copy_failure_masking_witness :
  fst (LiteralKeyActions.getContacts
         (constantHost ∅ (Throw (TypeError "fetch failed"))) emptyWorld) = Normal [] ∧
  console (snd (LiteralKeyActions.getContacts
         (constantHost ∅ (Throw (TypeError "fetch failed"))) emptyWorld))
    = console emptyWorld ++ [("Error fetching contacts:", TypeError "fetch failed")].
Proof.
  apply (proj2 (literal_copy_failure_masking
                  (constantHost ∅ (Throw (TypeError "fetch failed"))) emptyWorld)
               (TypeError "fetch failed")).
  reflexivity.
Defined.

(** ** An unset credential *)

Lemma process_env_get_unset h name :
  process_env h !! name = None → process_env_get h name = JUndefined.
Proof. unfold process_env_get. by intros ->. Qed.

(** X11: when HOLDED_API_KEY is not set, [getContacts] does not notice:
    it hands [undefined] to [auth] and still puts the request; if the
    remote rejects that request, the rejection is what gets logged and
    the result is the empty list. *)
Theorem unset_key_is_not_detected h w :
  process_env h !! "HOLDED_API_KEY" = None →
  core_calls (snd (Actions.getContacts h w))
    = core_calls w ++ [SetAuth [JUndefined]; Fetch "/contacts" "get" JUndefined] ∧
  ∀ e, listContactsOutcomeUnder h JUndefined = Throw e →
       fst (Actions.getContacts h w) = Normal [] ∧
       console (snd (Actions.getContacts h w))
         = console w ++ [("Error fetching contacts:", e)].
Proof.
  intros Hunset.
  pose proof (process_env_get_unset h _ Hunset) as Hcred.
  split; [by rewrite getContacts_calls, Hcred|].
  intros e He.
  unfold Actions.getContacts, tryCatch. rewrite tryBlock_unfold. simpl.
  unfold listContactsOutcome. rewrite Hcred.
  unfold listContactsOutcomeUnder in He. by rewrite He.
Qed.

Lemma unset_key_is_not_detected_witness :
  core_calls (snd (Actions.getContacts
      (constantHost ∅ (Throw (Rejection (JStr "401 Unauthorized")))) emptyWorld))
    = core_calls emptyWorld ++ [SetAuth [JUndefined]; Fetch "/contacts" "get" JUndefined] ∧
  ∀ e, listContactsOutcomeUnder
         (constantHost ∅ (Throw (Rejection (JStr "401 Unauthorized")))) JUndefined
         = Throw e →
       fst (Actions.getContacts
              (constantHost ∅ (Throw (Rejection (JStr "401 Unauthorized")))) emptyWorld)
         = Normal [] ∧
       console (snd (Actions.getContacts
              (constantHost ∅ (Throw (Rejection (JStr "401 Unauthorized")))) emptyWorld))
         = console emptyWorld ++ [("Error fetching contacts:", e)].
Proof.
  apply (unset_key_is_not_detected
           (constantHost ∅ (Throw (Rejection (JStr "401 Unauthorized")))) emptyWorld).
  apply lookup_empty.
Defined.

(** ** The chip colors *)

Lemma color_listed v :
  getTypeColor v ≠ "default" → ∃ s, v = JStr s ∧ s ∈ listedTypes.
Proof.
  destruct v as [| |b|x|s|items|props]; try (intros H; by destruct H).
  - destruct b; intros H; by destruct H.
  - unfold getTypeColor. simpl. destruct (negb _); intros H; by destruct H.
  - unfold getTypeColor, listedTypes. simpl.
    destruct (negb (s =? "")); simpl; [|intros H; by destruct H].
    repeat match goal with
           | |- context [String.eqb s ?k] =>
               destruct (String.eqb_spec s k) as [->|_];
               [intros _; eexists; split; [reflexivity|];
                repeat first [apply list_elem_of_here | apply list_elem_of_further]|]
           end.
    intros H; by destruct H.
Qed.

(** X12: whatever value it is given, [getTypeColor] answers with one of
    the six colors a chip accepts. *)
Theorem chip_color_range type : getTypeColor type ∈ chipColors.
Proof.
  assert (∀ c, c ∈ ["default"; "success"; "warning"; "primary"; "danger"; "secondary"]
               → c ∈ chipColors) as Hsub.
  { intros c Hc. unfold chipColors.
    repeat (apply elem_of_cons in Hc as [->|Hc];
            [repeat first [apply list_elem_of_here | apply list_elem_of_further]|]).
    by apply elem_of_nil in Hc. }
  apply Hsub.
  destruct type as [| |b|x|s|items|props];
    try (apply list_elem_of_here).
  - destruct b; apply list_elem_of_here.
  - unfold getTypeColor. simpl. destruct (negb _); apply list_elem_of_here.
  - unfold getTypeColor. simpl.
    destruct (negb (s =? "")); simpl; [|apply list_elem_of_here].
    repeat (destruct (String.eqb s _);
            [repeat first [apply list_elem_of_here | apply list_elem_of_further]|]).
    apply list_elem_of_here.
Qed.

(** X13: [getTypeColor] leaves the default color exactly for the five
    listed type names, spelled as listed: any other value, a listed
    name in another case included, gets the default. *)
Theorem color_default_iff type :
  getTypeColor type ≠ "default" ↔ ∃ s, type = JStr s ∧ s ∈ listedTypes.
Proof.
  split; [apply color_listed|].
  intros (s & -> & Hs). unfold listedTypes in Hs.
  repeat (apply elem_of_cons in Hs as [->|Hs]; [by vm_compute|]).
  by apply elem_of_nil in Hs.
Qed.

(** X14: distinct contact types never share a color: two values that
    get the same color, other than the default, are the same value. *)
Theorem color_distinguishes_types type1 type2 :
  getTypeColor type1 ≠ "default" →
  getTypeColor type1 = getTypeColor type2 →
  type1 = type2.
Proof.
  intros Hnd Heq.
  destruct (color_listed type1 Hnd) as (s1 & -> & H1).
  destruct (color_listed type2) as (s2 & -> & H2); [by rewrite <- Heq|].
  unfold listedTypes in H1, H2.
  repeat (apply elem_of_cons in H1 as [->|H1];
          [repeat (apply elem_of_cons in H2 as [->|H2];
                   [first [reflexivity | by vm_compute in Heq]|]);
           by apply elem_of_nil in H2|]).
  by apply elem_of_nil in H1.
Qed.

Lemma color_distinguishes_types_witness : JStr "lead" = JStr "lead".
Proof.
  apply (color_distinguishes_types (JStr "lead") (JStr "lead")).
  - by vm_compute.
  - reflexivity.
Defined.

(** ** The rows of the table *)

Lemma chipOf_renderRow c :
  chipOf (renderRow c) = Some (getTypeColor (Contact.type c), Contact.type c).
Proof. reflexivity. Qed.



(** ** The page *)

Lemma Home_unfold action w :
  Home action w =
    match action w with
    | (Normal contacts, w') =>
        (Normal {| home_class := "p-8";
                   heading_class := "text-2xl font-bold mb-4";
                   heading_text := "Contactos";
                   home_table := ContactsTable contacts |}, w')
    | (Throw e, w') => (Throw e, w')
    end.
Proof. unfold Home, mbind, Js_bind. by destruct (action w) as [[contacts|e] w']. Qed.

Lemma RowOf_renderRow v : IdIsString v → RowOf v (renderRow (displayed v)).
Proof.
  intros (props & s & -> & Hid). exists props. split; [done|].
  split; [simpl; by rewrite Hid | reflexivity].
Qed.

Lemma Forall2_RowOf kept :
  Forall IdIsString kept →
  Forall2 RowOf kept (renderRow <$> (displayed <$> kept)).
Proof. induction 1; constructor; [by apply RowOf_renderRow | done]. Qed.

(** X16: with either copy of the action the page always renders: [Home]
    completes normally in every world and against every remote, with
    the heading and a table. *)
Theorem home_always_renders h w :
  (∃ page, fst (Home (Actions.getContacts h) w) = Normal page) ∧
  (∃ page, fst (Home (LiteralKeyActions.getContacts h) w) = Normal page).
Proof.
  split.
  - rewrite Home_unfold.
    destruct (getContacts_total h w) as [out Hout].
    destruct (Actions.getContacts h w) as [[out'|e] w']; simpl in *; [eauto|discriminate].
  - rewrite Home_unfold, literal_copy_as_configured.
    destruct (getContacts_total
                (mkHost {[ "HOLDED_API_KEY" := "964f48473d755069d293cd3227d935b1" ]}
                        (core_fetch h)) w) as [out Hout].
    destruct (Actions.getContacts _ w) as [[out'|e] w']; simpl in *; [eauto|discriminate].
Qed.

(** X17: a failed fetch shows on the page as no contacts at all: when
    the [try] block of the action throws, [Home] renders the very page
    it renders for an empty contact list, a table without rows and no
    sign of the error. *)
Theorem home_failure_looks_empty h w e :
  fst (Actions.tryBlock h w) = Throw e →
  ∃ page,
    fst (Home (Actions.getContacts h) w) = Normal page ∧
    rows (home_table page) = [] ∧
    fst (Home (Actions.getContacts (constantHost (process_env h) (Normal (response [])))) w)
      = Normal page.
Proof.
  intros He.
  rewrite !Home_unfold, (getContacts_caught h w e He).
  destruct (getContacts_resolved _ w [] (resolvesWith_constant (process_env h) []))
    as [Htry Hget].
  rewrite Hget, Htry. simpl. eauto.
Qed.

Lemma home_failure_looks_empty_witness :
  ∃ page,
    fst (Home (Actions.getContacts (constantHost ∅ (Normal JNull))) emptyWorld)
      = Normal page ∧
    rows (home_table page) = [] ∧
    fst (Home (Actions.getContacts
                 (constantHost (process_env (constantHost ∅ (Normal JNull)))
                               (Normal (response [])))) emptyWorld)
      = Normal page.
Proof.
  apply (home_failure_looks_empty (constantHost ∅ (Normal JNull)) emptyWorld
           (TypeError "Cannot read properties of null")).
  reflexivity.
Defined.

(** X18: when the remote resolves with an array of records, the page
    shows one row for each record that has a string [id] and no other
    row, in the order of the remote: each row is keyed by its record's
    [id] and its chip shows the record's [type] in the color of that
    type. *)
Theorem home_rows h w data :
  resolvesWith h data →
  ∃ kept page,
    keeps IdIsString data kept ∧
    fst (Home (Actions.getContacts h) w) = Normal page ∧
    Forall2 RowOf kept (rows (home_table page)).
Proof.
  intros Hres.
  destruct (getContacts_resolved h w data Hres) as [Htry Hget].
  rewrite Home_unfold, Hget, Htry.
  eexists (List.filter idIsString data), _.
  split; [apply keeps_filter|]. split; [reflexivity|].
  simpl. apply Forall2_RowOf, (keeps_Forall _ data), keeps_filter.
Qed.

Lemma home_rows_witness :
  ∃ kept page,
    keeps IdIsString scenarioData kept ∧
    fst (Home (Actions.getContacts (constantHost ∅ (Normal (response scenarioData))))
           emptyWorld) = Normal page ∧
    Forall2 RowOf kept (rows (home_table page)).
Proof.
  apply (home_rows _ emptyWorld scenarioData).
  apply resolvesWith_constant.
Defined.

(** ** The endpoint methods *)






(** X20: no two methods of the client address the same endpoint: the
    methods have distinct names, and distinct pairs of verb and path. *)
Theorem methods_address_distinct_endpoints :
  NoDup (SDK.op_name <$> SDK.operations) ∧
  NoDup ((λ op, (SDK.op_verb op, SDK.op_path op)) <$> SDK.operations).
Proof. split; apply (bool_decide_unpack _); by vm_compute. Qed.


